(** * Site-metadata aggregation layer of dmitripavlutin.com

    A shallow embedding of
    - [gatsby/config/site-metadata.js]      (the Configuration Store),
    - [src/hooks/useAuthorAndSiteInfo.ts]   (the projection accessor),
    - [src/components/Affiliates/index.tsx] (the affiliate contact card),
    - the [CarbonAd] component              (the conditional ad banner),
    - the [FilterList] and [ListItem] example of the useTransition article,
    followed by the properties of the specification stated over it. *)

From Stdlib Require Import String Ascii List Bool Arith ZArith Lia.
Import ListNotations.
Local Open Scope string_scope.

Set Warnings "-register-all".

(* ===================================================================== *)
(** * JavaScript values                                                   *)
(* ===================================================================== *)

(** Untyped values: what a binding, a JSON scalar of the data layer
    (the image descriptor is typed [any]) or a JSX attribute may hold. *)
Inductive JsValue : Type :=
| JsUndefined
| JsNull
| JsBool (b : bool)
| JsNum (n : Z)
| JsStr (s : string)
| JsArr (items : list JsValue)
| JsObj (fields : list (string * JsValue))
| JsFun (name : string).

(** The two run-time errors the modelled code can raise. [TypeError p]:
    property [p] was read from [null] or [undefined]; [ReferenceError x]:
    identifier [x] is bound in no scope. *)
Inductive JsError : Type :=
| TypeError (property : string)
| ReferenceError (identifier : string).

(** [a === 'literal'] where [a] may be [undefined] (an unset environment
    variable): strict equality holds only between equal strings. *)
Definition strictEq (a : option string) (lit : string) : bool :=
  match a with
  | Some s => String.eqb s lit
  | None => false
  end.

(* ===================================================================== *)
(** * gatsby/config/site-metadata.js                                      *)
(* ===================================================================== *)

Module Store.

Record SiteInfo : Type := {
  title : string;
  description : string;
  metaTitle : string;
  metaDescription : string;
  url : string;
  repositoryUrl : string;
  githubCommentsRepository : string;
  googleCustomSearchId : string
}.

Record Profiles : Type := {
  stackoverflow : string;
  twitter : string;
  linkedin : string;
  github : string;
  facebook : string
}.

Record Nicknames : Type := {
  nick_twitter : string
}.

Record AuthorInfo : Type := {
  name : string;
  author_description : string;
  job : string;
  email : string;
  jobTitle : string;
  profiles : Profiles;
  nicknames : Nicknames
}.

Record EmailSubscriptionService : Type := {
  endpoint : string;
  hiddenFieldName : string
}.

Record CarbonAdsService : Type := {
  scriptSrc : string;
  isEnabled : bool;
  isProductionMode : bool
}.

Record PopularPosts : Type := {
  category : string;
  slugs : list string
}.

Record Featured : Type := {
  popularPostsByCategory : list PopularPosts
}.

Record AffiliateOffer : Type := {
  tag : string;
  courseTitle : string;
  courseLink : string;
  pitch : string
}.

(** The shape of [module.exports]. *)
Record SiteMetadata : Type := {
  siteUrl : string;
  siteInfo : SiteInfo;
  authorInfo : AuthorInfo;
  emailSubscriptionService : EmailSubscriptionService;
  carbonAdsService : CarbonAdsService;
  featured : Featured;
  affiliates : list AffiliateOffer
}.

(** [const siteUrl = 'https://dmitripavlutin.com';] *)
Definition siteUrl_const : string := "https://dmitripavlutin.com".

(** [module.exports = { ... }], evaluated with [process.env.NODE_ENV]
    being [NODE_ENV] ([None] when the variable is unset). *)
Definition siteMetadata (NODE_ENV : option string) : SiteMetadata := {|
  siteUrl := siteUrl_const;
  siteInfo := {|
    title := "Dmitri Pavlutin";
    description := "I help developers understand Frontend technologies";
    metaTitle := "Dmitri Pavlutin Blog";
    metaDescription :=
      "Dmitri Pavlutin Blog is a place to learn about JavaScript, CSS, React, Vue and more on Frontend development";
    url := siteUrl_const;
    repositoryUrl := "https://github.com/panzerdp/dmitripavlutin.com";
    githubCommentsRepository := "panzerdp/dmitripavlutin.com-comments";
    googleCustomSearchId := "004443697379288327791:1zr8pgnumxn"
  |};
  authorInfo := {|
    name := "Dmitri Pavlutin";
    author_description :=
      "Tech writer and coach. My daily routine consists of (but not limited to) drinking coffee, coding, writing, coaching, overcoming boredom 😉.";
    job := "";
    email := "dmitripavlutin@gmail.com";
    jobTitle := "Software Developer";
    profiles := {|
      stackoverflow := "https://stackoverflow.com/users/1894471/dmitri-pavlutin";
      twitter := "https://twitter.com/panzerdp";
      linkedin := "https://www.linkedin.com/in/dmitri-pavlutin/";
      github := "https://github.com/panzerdp";
      facebook := "https://www.facebook.com/dmitripavlutin.dev"
    |};
    nicknames := {| nick_twitter := "panzerdp" |}
  |};
  emailSubscriptionService := {|
    endpoint :=
      "https://dmitripavlutin.us13.list-manage.com/subscribe/post?u=7cedcb1f5ab74eb7c907e768e&id=75f44f92b9";
    hiddenFieldName := "b_7cedcb1f5ab74eb7c907e768e_75f44f92b9"
  |};
  carbonAdsService := {|
    scriptSrc := "//cdn.carbonads.com/carbon.js?serve=CE7DT2QI&placement=dmitripavlutincom";
    isEnabled := true;
    isProductionMode :=
      strictEq NODE_ENV "production" || strictEq NODE_ENV "prod"
  |};
  featured := {|
    popularPostsByCategory := [
      {| category := "JavaScript";
         slugs := [ "javascript-closure";
                    "gentle-explanation-of-this-in-javascript";
                    "differences-between-arrow-and-regular-functions" ] |};
      {| category := "React";
         slugs := [ "react-useeffect-explanation";
                    "react-usecallback";
                    "use-react-memo-wisely" ] |}
    ]
  |};
  affiliates := [
    {| tag := "react";
       courseTitle := "React Front To Back Course";
       courseLink := "https://www.traversymedia.com/a/2147528895/FqXWyazh";
       pitch := "This is just an example of pitch" |};
    {| tag := "javascript";
       courseTitle := "Modern JavaScript From The Beginning 2.0";
       courseLink := "https://www.traversymedia.com/a/2147528886/FqXWyazh";
       pitch := "This is just an example of pitch" |}
  ]
|}.

End Store.

(* ===================================================================== *)
(** * The external data layer                                             *)
(* ===================================================================== *)

(** The result type of the [AuthorInfoAndPictures] query. Every object
    level of a GraphQL result is nullable; [None] is [null]. *)
Module Query.

Record SiteSiteMetadata : Type := {
  authorInfo : option Store.AuthorInfo;
  siteInfo : option Store.SiteInfo;
  affiliates : option (list Store.AffiliateOffer)
}.

Record Site : Type := {
  siteMetadata : option SiteSiteMetadata
}.

Record ImageSharp : Type := {
  gatsbyImageData : JsValue
}.

Record File : Type := {
  childImageSharp : option ImageSharp
}.

Record AuthorInfoAndPicturesQuery : Type := {
  site : option Site;
  authorProfilePicture : option File
}.

End Query.

(** The arguments of [gatsbyImageData(...)] in the query. *)
Inductive ImageLayout : Type := FIXED | FULL_WIDTH | CONSTRAINED.
Inductive ImageFormat : Type := NO_CHANGE | AUTO | JPG | PNG | WEBP | AVIF.

Record GatsbyImageArgs : Type := {
  width : Z;
  quality : Z;
  layout : ImageLayout;
  formats : list ImageFormat
}.

(** A file node of the data layer: its path and, for an image, the
    image pipeline that turns arguments into a descriptor. *)
Record FileNode : Type := {
  relativePath : string;
  sharp : option (GatsbyImageArgs -> JsValue)
}.

(** [fragment SiteInfoAll on SiteSiteMetadataSiteInfo { ... }] *)
Definition SiteInfoAll (s : Store.SiteInfo) : Store.SiteInfo := {|
  Store.title := Store.title s;
  Store.description := Store.description s;
  Store.metaTitle := Store.metaTitle s;
  Store.metaDescription := Store.metaDescription s;
  Store.url := Store.url s;
  Store.repositoryUrl := Store.repositoryUrl s;
  Store.githubCommentsRepository := Store.githubCommentsRepository s;
  Store.googleCustomSearchId := Store.googleCustomSearchId s
|}.

(** [fragment AuthorInfoAll on SiteSiteMetadataAuthorInfo { ... }] *)
Definition AuthorInfoAll (a : Store.AuthorInfo) : Store.AuthorInfo := {|
  Store.name := Store.name a;
  Store.author_description := Store.author_description a;
  Store.job := Store.job a;
  Store.email := Store.email a;
  Store.jobTitle := Store.jobTitle a;
  Store.profiles := {|
    Store.stackoverflow := Store.stackoverflow (Store.profiles a);
    Store.twitter := Store.twitter (Store.profiles a);
    Store.linkedin := Store.linkedin (Store.profiles a);
    Store.github := Store.github (Store.profiles a);
    Store.facebook := Store.facebook (Store.profiles a)
  |};
  Store.nicknames := {|
    Store.nick_twitter := Store.nick_twitter (Store.nicknames a)
  |}
|}.

(** [affiliates { tag courseTitle pitch courseLink }] *)
Definition affiliatesSelection (o : Store.AffiliateOffer) : Store.AffiliateOffer := {|
  Store.tag := Store.tag o;
  Store.courseTitle := Store.courseTitle o;
  Store.pitch := Store.pitch o;
  Store.courseLink := Store.courseLink o
|}.

(** [file(relativePath: { eq: "louvre.jpg" })]: the first matching node,
    [null] when there is none. *)
Definition file (files : list FileNode) (eq : string) : option FileNode :=
  find (fun f => String.eqb (relativePath f) eq) files.

(** [query AuthorInfoAndPictures { ... }] resolved against the
    Configuration Store and the file nodes of a build. *)
Definition AuthorInfoAndPictures
    (store : Store.SiteMetadata) (files : list FileNode)
  : Query.AuthorInfoAndPicturesQuery := {|
  Query.site := Some {|
    Query.siteMetadata := Some {|
      Query.authorInfo := Some (AuthorInfoAll (Store.authorInfo store));
      Query.siteInfo := Some (SiteInfoAll (Store.siteInfo store));
      Query.affiliates := Some (map affiliatesSelection (Store.affiliates store))
    |}
  |};
  Query.authorProfilePicture :=
    match file files "louvre.jpg" with
    | Some f => Some {|
        Query.childImageSharp :=
          match sharp f with
          | Some gatsbyImageData => Some {|
              Query.gatsbyImageData :=
                gatsbyImageData {| width := 300; quality := 60;
                                   layout := CONSTRAINED;
                                   formats := [AUTO; AVIF] |}
            |}
          | None => None
          end
      |}
    | None => None
    end
|}.

(* ===================================================================== *)
(** * Rendering: state and exceptions                                     *)
(* ===================================================================== *)

(** What a call made during rendering can observe or change: the loaded
    Configuration Store, the query result the data layer serves, the
    number of reads it has served and the number of refs React handed
    out. *)
Record World : Type := {
  store : Store.SiteMetadata;
  staticQueryResult : Query.AuthorInfoAndPicturesQuery;
  reads : nat;
  refs : nat
}.

(** The world a build starts rendering in. *)
Definition build (NODE_ENV : option string) (files : list FileNode) : World :=
  let store := Store.siteMetadata NODE_ENV in
  {| store := store;
     staticQueryResult := AuthorInfoAndPictures store files;
     reads := 0;
     refs := 0 |}.

Inductive Outcome (A : Type) : Type :=
| Returned (a : A)
| Thrown (e : JsError).
Arguments Returned {A} a.
Arguments Thrown {A} e.

(** A computation run during rendering. An exception keeps the effects
    made before it was thrown. *)
Definition Render (A : Type) : Type := World -> Outcome A * World.

Definition ret {A} (a : A) : Render A := fun w => (Returned a, w).

Definition throw {A} (e : JsError) : Render A := fun w => (Thrown e, w).

Definition bind {A B} (c : Render A) (k : A -> Render B) : Render B :=
  fun w =>
    match c w with
    | (Returned a, w') => k a w'
    | (Thrown e, w') => (Thrown e, w')
    end.

Declare Scope render_scope.
Delimit Scope render_scope with render.
Notation "x <- c ;; k" := (bind c (fun x => k))
  (at level 100, c at next level, right associativity) : render_scope.
Local Open Scope render_scope.

(** [o.p] where [o] may be [null]: reading property [p] of [null] throws. *)
Definition nonNull {A} (o : option A) (p : string) : Render A :=
  match o with
  | Some a => ret a
  | None => throw (TypeError p)
  end.

(** gatsby's [useStaticQuery]: one read against the data layer. *)
Definition useStaticQuery : Render Query.AuthorInfoAndPicturesQuery :=
  fun w =>
    (Returned (staticQueryResult w),
     {| store := store w;
        staticQueryResult := staticQueryResult w;
        reads := S (reads w);
        refs := refs w |}).

(** React's [useRef()]: a handle owned by the rendering component. *)
Definition Ref : Type := nat.

Definition useRef : Render Ref :=
  fun w =>
    (Returned (refs w),
     {| store := store w;
        staticQueryResult := staticQueryResult w;
        reads := reads w;
        refs := S (refs w) |}).

(* ===================================================================== *)
(** * src/hooks/useAuthorAndSiteInfo.ts                                   *)
(* ===================================================================== *)

(** The value the accessor returns. *)
Record Author : Type := {
  info : option Store.AuthorInfo;
  profilePicture : JsValue;
  profilePictureSrc : option string
}.

Record ProjectedMetadata : Type := {
  author : Author;
  site : option Store.SiteInfo;
  affiliates : option (list Store.AffiliateOffer)
}.

Section Accessor.

(** [getSrc] of gatsby-plugin-image, of type
    [(node) => string | undefined]; [None] is [undefined]. *)
Variable getSrc : JsValue -> option string.

(** [data.site.siteMetadata.p] *)
Definition siteMetadata_of (data : Query.AuthorInfoAndPicturesQuery) (p : string)
  : Render Query.SiteSiteMetadata :=
  s <- nonNull (Query.site data) "siteMetadata" ;;
  nonNull (Query.siteMetadata s) p.

(** Line 63 reads [data.authorProfilePicture.childImageSharp.gatsbyImageData];
    the object literal of lines 64-72 is then evaluated field by field. *)
Definition useAuthorAndSiteInfo : Render ProjectedMetadata :=
  data <- useStaticQuery ;;
  picture <- nonNull (Query.authorProfilePicture data) "childImageSharp" ;;
  imageSharp <- nonNull (Query.childImageSharp picture) "gatsbyImageData" ;;
  let imageData := Query.gatsbyImageData imageSharp in
  m1 <- siteMetadata_of data "authorInfo" ;;
  let src := getSrc imageData in
  m2 <- siteMetadata_of data "siteInfo" ;;
  m3 <- siteMetadata_of data "affiliates" ;;
  ret {| author := {| info := Query.authorInfo m1;
                      profilePicture := imageData;
                      profilePictureSrc := src |};
         site := Query.siteInfo m2;
         affiliates := Query.affiliates m3 |}.

End Accessor.

(* ===================================================================== *)
(** * Rendered output, scopes and property reads                          *)
(* ===================================================================== *)

(** What a component returns: host elements, text, fragments and the two
    banner components [CarbonAd] instantiates. *)
Inductive Element : Type :=
| Host (tag : string) (ref : option Ref) (props : list (string * JsValue))
       (children : list Element)
| Text (s : string)
| Fragment (children : list Element)
| CarbonBannerLive (ref : Ref) (scriptSrc : string)
| CarbonBannerDemo (ref : Ref).

(** A scope chain, innermost binding first. *)
Definition Scope : Type := list (string * JsValue).

Definition lookup (x : string) (fields : list (string * JsValue)) : option JsValue :=
  match find (fun b => String.eqb (fst b) x) fields with
  | Some b => Some (snd b)
  | None => None
  end.

(** Evaluating the identifier [x]. *)
Definition ident (scope : Scope) (x : string) : Render JsValue :=
  match lookup x scope with
  | Some v => ret v
  | None => throw (ReferenceError x)
  end.

(** Evaluating [v.p]. An own property of an object is read, a missing one
    is [undefined]; inherited properties of primitives and functions are
    not modelled (the components read none). *)
Definition member (v : JsValue) (p : string) : Render JsValue :=
  match v with
  | JsUndefined | JsNull => throw (TypeError p)
  | JsObj fields =>
      ret (match lookup p fields with Some x => x | None => JsUndefined end)
  | _ => ret JsUndefined
  end.

Definition ofAffiliateOffer (o : Store.AffiliateOffer) : JsValue :=
  JsObj [ ("tag", JsStr (Store.tag o));
          ("courseTitle", JsStr (Store.courseTitle o));
          ("pitch", JsStr (Store.pitch o));
          ("courseLink", JsStr (Store.courseLink o)) ].

Definition ofAffiliates (a : option (list Store.AffiliateOffer)) : JsValue :=
  match a with
  | Some l => JsArr (map ofAffiliateOffer l)
  | None => JsNull
  end.

(* ===================================================================== *)
(** * src/components/Affiliates/index.tsx                                 *)
(* ===================================================================== *)

Section Components.

Variable getSrc : JsValue -> option string.

(** String conversion of a template-literal substitution. *)
Variable ToString : JsValue -> string.

(** The class names exported by [./index.module.scss] of [Affiliates]
    ([import * as styles]) and of [CarbonAd] ([import styles]). *)
Variable affiliatesStyles : list (string * JsValue).
Variable carbonAdStyles : list (string * JsValue).

(** Module scope of Affiliates/index.tsx: the two imports and the
    function declaration. *)
Definition Affiliates_moduleScope : Scope :=
  [ ("useAuthorAndSiteInfo", JsFun "useAuthorAndSiteInfo");
    ("styles", JsObj affiliatesStyles);
    ("Affiliates", JsFun "Affiliates") ].

(** Function scope after [const { affiliates } = useAuthorAndSiteInfo();]. *)
Definition Affiliates_scope (result : ProjectedMetadata) : Scope :=
  ("affiliates", ofAffiliates (affiliates result)) :: Affiliates_moduleScope.

(** [styles.k] *)
Definition className (scope : Scope) (k : string) : Render JsValue :=
  styles <- ident scope "styles" ;;
  member styles k.

(** [`mailto:${info.email}...`] *)
Definition mailto (scope : Scope) (rest : string) : Render JsValue :=
  info <- ident scope "info" ;;
  email <- member info "email" ;;
  ret (JsStr ("mailto:" ++ ToString email ++ rest)).

(** [`Write a message to ${info.name}`] *)
Definition writeMessageTo (scope : Scope) : Render JsValue :=
  info <- ident scope "info" ;;
  name <- member info "name" ;;
  ret (JsStr ("Write a message to " ++ ToString name)).

(** Line 5 calls the accessor; the JSX of lines 8-30 evaluates its
    attributes in source order, the [href] of line 23 being the first
    expression that mentions [info]. *)
Definition Affiliates : Render Element :=
  result <- useAuthorAndSiteInfo getSrc ;;
  let scope := Affiliates_scope result in
  contactAuthor <- className scope "contactAuthor" ;;
  description <- className scope "description" ;;
  links <- className scope "links" ;;
  icon <- className scope "icon" ;;
  href1 <- mailto scope "" ;;
  title1 <- writeMessageTo scope ;;
  text <- className scope "text" ;;
  href2 <- mailto scope "?subject=Book a JavaScript coaching session" ;;
  title2 <- writeMessageTo scope ;;
  ret (Host "div" None [("className", contactAuthor)]
    [ Host "h3" None [] [Text "Your JavaScript Coach"];
      Host "div" None [("className", description)]
        [ Host "p" None []
            [ Text "I know how cumbersome are closures, scopes, prototypes, inheritance, async functions, ";
              Host "i" None [] [Text "this"];
              Text " in JavaScript. " ];
          Host "p" None []
            [ Text "I'm excited to start my coaching program to help you advance your JavaScript knowledge." ];
          Host "p" None [] [Text "You can have direct access to me through:"];
          Host "ul" None []
            [ Host "li" None []
                [Text "1 hour, one-to-one, video or chat coaching sessions"];
              Host "li" None []
                [Text "JavaScript, TypeScript, React, Next teaching, workshops, or interview preparation (you choose!)"];
              Host "li" None [] [Text "Conversational and friendly format"] ] ];
      Host "div" None [("className", links)]
        [ Host "a" None
            [("className", icon); ("href", href1); ("title", title1)]
            [ Host "img" None
                [("alt", JsStr "Email address"); ("src", JsStr "/icons/email.svg")]
                [] ];
          Host "a" None
            [("className", text); ("href", href2); ("title", title2)]
            [Text "Book a Coaching Session"] ] ]).

(* ===================================================================== *)
(** * The CarbonAd component                                              *)
(* ===================================================================== *)

Record CarbonAdProps : Type := {
  carbonAdsService : Store.CarbonAdsService
}.

(** [None] is the [null] returned when the service is disabled. *)
Definition CarbonAd (props : CarbonAdProps) : Render (option Element) :=
  let isEnabled := Store.isEnabled (carbonAdsService props) in
  let isProductionMode := Store.isProductionMode (carbonAdsService props) in
  let scriptSrc := Store.scriptSrc (carbonAdsService props) in
  container <- useRef ;;
  if negb isEnabled then ret None
  else
    carbonAd <- member (JsObj carbonAdStyles) "carbonAd" ;;
    ret (Some (Fragment
      [ Host "div" (Some container) [("className", carbonAd)] [];
        if isProductionMode
        then CarbonBannerLive container scriptSrc
        else CarbonBannerDemo container ])).

End Components.

(* ===================================================================== *)
(** * Vocabulary of the specification                                     *)
(* ===================================================================== *)

(** The world after one read against the data layer and nothing else. *)
Definition afterRead (w : World) : World :=
  {| store := store w;
     staticQueryResult := staticQueryResult w;
     reads := S (reads w);
     refs := refs w |}.

(** A value that is neither [null] nor [undefined]. *)
Definition present (v : JsValue) : bool :=
  match v with
  | JsUndefined | JsNull => false
  | _ => true
  end.

Definition nonEmpty (s : string) : bool := negb (String.eqb s "").

Definition isSome {A} (o : option A) : bool :=
  match o with Some _ => true | None => false end.

(** The image descriptor carries a source URL that [getSrc] finds. *)
Definition hasSrc (getSrc : JsValue -> option string) (d : JsValue) : bool :=
  match getSrc d with
  | Some s => nonEmpty s
  | None => false
  end.

(** The descriptor the query result carries, when every level above it
    is present. *)
Definition resolvedImageData (data : Query.AuthorInfoAndPicturesQuery) : option JsValue :=
  match Query.authorProfilePicture data with
  | Some f =>
      match Query.childImageSharp f with
      | Some i => Some (Query.gatsbyImageData i)
      | None => None
      end
  | None => None
  end.

(** The [siteMetadata] object of the query result, when present. *)
Definition resolvedSiteMetadata (data : Query.AuthorInfoAndPicturesQuery)
  : option Query.SiteSiteMetadata :=
  match Query.site data with
  | Some s => Query.siteMetadata s
  | None => None
  end.

(** The precondition of a well-formed build: the data layer resolved
    every field the query requests. *)
Definition allRequestedFieldsPresent
    (data : Query.AuthorInfoAndPicturesQuery) : bool :=
  match resolvedSiteMetadata data, resolvedImageData data with
  | Some m, Some d =>
      isSome (Query.authorInfo m) && isSome (Query.siteInfo m)
      && isSome (Query.affiliates m) && present d
  | _, _ => false
  end.

(** No field of the accessor's result is absent or [null]. *)
Definition fullyPopulated (r : ProjectedMetadata) : bool :=
  isSome (info (author r)) && present (profilePicture (author r))
  && isSome (profilePictureSrc (author r))
  && isSome (site r) && isSome (affiliates r).

(** Every field of [SiteInfo] is a non-empty string. *)
Definition siteInfoPopulated (s : Store.SiteInfo) : bool :=
  nonEmpty (Store.title s) && nonEmpty (Store.description s)
  && nonEmpty (Store.metaTitle s) && nonEmpty (Store.metaDescription s)
  && nonEmpty (Store.url s) && nonEmpty (Store.repositoryUrl s)
  && nonEmpty (Store.githubCommentsRepository s)
  && nonEmpty (Store.googleCustomSearchId s).

(** The Configuration Store with its [isProductionMode] flag replaced. *)
Definition withProductionMode (b : bool) (m : Store.SiteMetadata) : Store.SiteMetadata :=
  {| Store.siteUrl := Store.siteUrl m;
     Store.siteInfo := Store.siteInfo m;
     Store.authorInfo := Store.authorInfo m;
     Store.emailSubscriptionService := Store.emailSubscriptionService m;
     Store.carbonAdsService :=
       {| Store.scriptSrc := Store.scriptSrc (Store.carbonAdsService m);
          Store.isEnabled := Store.isEnabled (Store.carbonAdsService m);
          Store.isProductionMode := b |};
     Store.featured := Store.featured m;
     Store.affiliates := Store.affiliates m |}.

(** What runs while the site renders. *)
Inductive Invocation : Type :=
| CallAccessor
| RenderAffiliates
| RenderCarbonAd (props : CarbonAdProps).

Section Runtime.

Variable getSrc : JsValue -> option string.
Variable ToString : JsValue -> string.
Variable affiliatesStyles : list (string * JsValue).
Variable carbonAdStyles : list (string * JsValue).

(** The world one invocation leaves behind, whether it returned or threw. *)
Definition step (w : World) (i : Invocation) : World :=
  match i with
  | CallAccessor => snd (useAuthorAndSiteInfo getSrc w)
  | RenderAffiliates => snd (Affiliates getSrc ToString affiliatesStyles w)
  | RenderCarbonAd props => snd (CarbonAd carbonAdStyles props w)
  end.

Definition steps (w : World) (trace : list Invocation) : World :=
  fold_left step trace w.

(** The world after [n] consecutive calls of the accessor. *)
Fixpoint invocations (n : nat) (w : World) : World :=
  match n with
  | O => w
  | S k => invocations k (snd (useAuthorAndSiteInfo getSrc w))
  end.

End Runtime.

(** ** Fixtures

    A stand-in for [getSrc] reading [images.fallback.src] ([undefined]
    when the descriptor has none or an empty one), a pipeline producing
    such a descriptor, and the file nodes of a build that contains the
    profile picture. *)
Definition getSrc_fallback (node : JsValue) : option string :=
  match node with
  | JsObj fields =>
      match lookup "images" fields with
      | Some (JsObj images) =>
          match lookup "fallback" images with
          | Some (JsObj fallback) =>
              match lookup "src" fallback with
              | Some (JsStr src) => if String.eqb src "" then None else Some src
              | _ => None
              end
          | _ => None
          end
      | _ => None
      end
  | _ => None
  end.

Definition louvre_pipeline (args : GatsbyImageArgs) : JsValue :=
  JsObj [ ("layout", JsStr "constrained");
          ("width", JsNum (width args));
          ("images",
            JsObj [ ("fallback",
                      JsObj [ ("src", JsStr "/static/louvre.jpg") ]) ]) ].

Definition louvre_node : FileNode :=
  {| relativePath := "louvre.jpg"; sharp := Some louvre_pipeline |}.

Definition example_files : list FileNode :=
  [ {| relativePath := "favicon.png"; sharp := None |}; louvre_node ].

Definition example_world : World := build (Some "production") example_files.

(** A build whose picture asset is missing: the [file] field is [null]. *)
Definition pictureless_world : World := build None [].

(** A build whose picture resolves to a [null] descriptor. *)
Definition null_descriptor_world : World :=
  build None [ {| relativePath := "louvre.jpg";
                  sharp := Some (fun _ => JsNull) |} ].

(** A build whose descriptor is present but carries no fallback source. *)
Definition sourceless_pipeline (args : GatsbyImageArgs) : JsValue :=
  JsObj [ ("layout", JsStr "constrained");
          ("width", JsNum (width args));
          ("images", JsObj [ ("sources", JsArr []) ]) ].

Definition sourceless_world : World :=
  build None [ {| relativePath := "louvre.jpg";
                  sharp := Some sourceless_pipeline |} ].

(** What the accessor returns in [example_world]. *)
Definition example_projection : ProjectedMetadata :=
  let cfg := Store.siteMetadata (Some "production") in
  let descriptor :=
    louvre_pipeline {| width := 300; quality := 60;
                       layout := CONSTRAINED; formats := [AUTO; AVIF] |} in
  {| author := {| info := Some (Store.authorInfo cfg);
                  profilePicture := descriptor;
                  profilePictureSrc := Some "/static/louvre.jpg" |};
     site := Some (Store.siteInfo cfg);
     affiliates := Some (Store.affiliates cfg) |}.

(** A string conversion for the examples: strings convert to themselves. *)
Definition ToString_example (v : JsValue) : string :=
  match v with
  | JsStr s => s
  | JsUndefined => "undefined"
  | JsNull => "null"
  | JsBool true => "true"
  | JsBool false => "false"
  | _ => "[object Object]"
  end.

(* ===================================================================== *)
(** * The FilterList example (article on useTransition)                   *)
(* ===================================================================== *)

(** [s.indexOf(search)]: the index of the leftmost occurrence of
    [search] in [s], [-1] when there is none. Positions count the units
    of the string, which for ASCII text are both its bytes and its
    UTF-16 code units. *)
Definition indexOf (s search : string) : Z :=
  match String.index 0 search s with
  | Some k => Z.of_nat k
  | None => (-1)%Z
  end.

(** The clamping [slice] applies to an index: a negative one counts from
    the end, and nothing reaches outside [0 .. len]. *)
Definition clampIndex (len i : Z) : Z :=
  if (i <? 0)%Z then Z.max (len + i) 0 else Z.min i len.

(** [s.slice(start, end)]; [end_ = None] is the one-argument call. *)
Definition slice (s : string) (start : Z) (end_ : option Z) : string :=
  let len := Z.of_nat (String.length s) in
  let from := clampIndex len start in
  let to := match end_ with
            | Some e => clampIndex len e
            | None => len
            end in
  if (to <=? from)%Z then ""
  else String.substring (Z.to_nat from) (Z.to_nat (to - from)) s.

Section FilterListExample.

(** [String.prototype.toLowerCase], provided by the engine. *)
Variable toLowerCase : string -> string.

(** [function ListItem({ name, highlight })] *)
Definition ListItem (name highlight : string) : Element :=
  let index := indexOf (toLowerCase name) (toLowerCase highlight) in
  if (index =? -1)%Z then Host "div" None [] [Text name]
  else
    let stop := (index + Z.of_nat (String.length highlight))%Z in
    Host "div" None []
      [ Text (slice name 0 (Some index));
        Host "span" None [("className", JsStr "highlight")]
          [Text (slice name index (Some stop))];
        Text (slice name stop None) ].

(** [export function FilterList({ names })] rendered with its state
    variable holding [query]; the array of items follows the input. *)
Definition FilterList (names : list string) (query : string) : Element :=
  Host "div" None []
    (Host "input" None
       [ ("onChange", JsFun "changeHandler");
         ("value", JsStr query);
         ("type", JsStr "text") ] []
     :: map (fun name => ListItem name query) names).

End FilterListExample.

(** The text a rendered element shows, in document order. *)
Fixpoint textContent (e : Element) : string :=
  match e with
  | Host _ _ _ children =>
      (fix go (l : list Element) : string :=
         match l with
         | [] => ""
         | c :: l' => textContent c ++ go l'
         end) children
  | Text s => s
  | Fragment children =>
      (fix go (l : list Element) : string :=
         match l with
         | [] => ""
         | c :: l' => textContent c ++ go l'
         end) children
  | CarbonBannerLive _ _ => ""
  | CarbonBannerDemo _ => ""
  end.

(** The items [FilterList] renders after its input. *)
Definition renderedItems (e : Element) : list Element :=
  match e with
  | Host _ _ _ (_ :: items) => items
  | _ => []
  end.

(** Lower-casing of the letters A-Z, unit by unit: what [toLowerCase]
    does on ASCII text. *)
Definition lowerUnit (c : ascii) : ascii :=
  let n := nat_of_ascii c in
  if ((65 <=? n)%nat && (n <=? 90)%nat)%bool then ascii_of_nat (n + 32) else c.

Fixpoint toLowerCase_ascii (s : string) : string :=
  match s with
  | EmptyString => EmptyString
  | String c s' => String (lowerUnit c) (toLowerCase_ascii s')
  end.

(** Text made of ASCII units only. *)
Fixpoint asciiOnly (s : string) : bool :=
  match s with
  | EmptyString => true
  | String c s' => ((nat_of_ascii c <? 128)%nat && asciiOnly s')%bool
  end.

(** ** Counting what a trace of invocations does *)

(** The reads a trace makes: one per accessor call, one per render of
    [Affiliates]. *)
Fixpoint readsOf (trace : list Invocation) : nat :=
  match trace with
  | [] => 0
  | CallAccessor :: t => S (readsOf t)
  | RenderAffiliates :: t => S (readsOf t)
  | RenderCarbonAd _ :: t => readsOf t
  end.

(** The [useRef] calls of a trace: one per render of [CarbonAd]. *)
Fixpoint refsOf (trace : list Invocation) : nat :=
  match trace with
  | [] => 0
  | RenderCarbonAd _ :: t => S (refsOf t)
  | _ :: t => refsOf t
  end.

(* ===================================================================== *)
(** * Properties                                                          *)
(* ===================================================================== *)

(** ** The accessor, case by case *)

Section AccessorFacts.

Variable getSrc : JsValue -> option string.

(** Case analysis on the served query result: the world is opened, then
    the picture branch and the site branch of the result. *)
Ltac accessor_cases w :=
  unfold useAuthorAndSiteInfo, useStaticQuery, siteMetadata_of, bind, nonNull,
    afterRead;
  destruct w as [?st [?s ?p] ?rd ?rf]; cbn;
  match goal with
  | p : option Query.File |- _ => destruct p as [[[[?d]|]]|]; cbn
  end;
  match goal with
  | s : option Query.Site |- _ => destruct s as [[[?m|]]|]; cbn
  end.

(** Whatever the accessor does, the only trace it leaves is one read. *)
Lemma useAuthorAndSiteInfo_world (w : World) :
  snd (useAuthorAndSiteInfo getSrc w) = afterRead w.
Proof.
  accessor_cases w; reflexivity.
Qed.

(** The outcome depends on the served query result only. *)
Lemma useAuthorAndSiteInfo_outcome (w1 w2 : World) :
  staticQueryResult w1 = staticQueryResult w2 ->
  fst (useAuthorAndSiteInfo getSrc w1) = fst (useAuthorAndSiteInfo getSrc w2).
Proof.
  intros E.
  destruct w1 as [st1 q rd1 rf1], w2 as [st2 q2 rd2 rf2]; cbn in E; subst q2.
  unfold useAuthorAndSiteInfo, useStaticQuery, siteMetadata_of, bind, nonNull; cbn.
  destruct q as [s p]; cbn.
  destruct p as [[[[d]|]]|]; cbn; try reflexivity;
    destruct s as [[[m|]]|]; reflexivity.
Qed.

(** When both the site metadata and the descriptor are resolved, the
    accessor returns the regrouped record. *)
Lemma useAuthorAndSiteInfo_returns (w : World) m d :
  resolvedSiteMetadata (staticQueryResult w) = Some m ->
  resolvedImageData (staticQueryResult w) = Some d ->
  useAuthorAndSiteInfo getSrc w =
    (Returned {| author := {| info := Query.authorInfo m;
                              profilePicture := d;
                              profilePictureSrc := getSrc d |};
                 site := Query.siteInfo m;
                 affiliates := Query.affiliates m |},
     afterRead w).
Proof.
  unfold resolvedSiteMetadata, resolvedImageData.
  accessor_cases w; try discriminate.
  intros Hm Hd. inversion Hm; inversion Hd; subst. reflexivity.
Qed.

(** Conversely, a returned value is that regrouped record. *)
Lemma useAuthorAndSiteInfo_inv (w w' : World) r :
  useAuthorAndSiteInfo getSrc w = (Returned r, w') ->
  exists m d,
    resolvedSiteMetadata (staticQueryResult w) = Some m /\
    resolvedImageData (staticQueryResult w) = Some d /\
    r = {| author := {| info := Query.authorInfo m;
                        profilePicture := d;
                        profilePictureSrc := getSrc d |};
           site := Query.siteInfo m;
           affiliates := Query.affiliates m |} /\
    w' = afterRead w.
Proof.
  unfold resolvedSiteMetadata, resolvedImageData.
  accessor_cases w; try discriminate.
  intros H. inversion H; subst. eexists _, _. repeat split.
Qed.

End AccessorFacts.

(** ** The query selects every field of the three groups *)

Lemma SiteInfoAll_id (s : Store.SiteInfo) : SiteInfoAll s = s.
Proof. destruct s; reflexivity. Qed.

Lemma AuthorInfoAll_id (a : Store.AuthorInfo) : AuthorInfoAll a = a.
Proof. destruct a as [n d j e t [] []]; reflexivity. Qed.

Lemma affiliatesSelection_id (o : Store.AffiliateOffer) : affiliatesSelection o = o.
Proof. destruct o; reflexivity. Qed.

Lemma affiliatesSelection_map (l : list Store.AffiliateOffer) :
  map affiliatesSelection l = l.
Proof.
  induction l as [|o l IH]; cbn; [reflexivity|].
  now rewrite affiliatesSelection_id, IH.
Qed.

Lemma AuthorInfoAndPictures_siteMetadata store files :
  resolvedSiteMetadata (AuthorInfoAndPictures store files) =
    Some {| Query.authorInfo := Some (Store.authorInfo store);
            Query.siteInfo := Some (Store.siteInfo store);
            Query.affiliates := Some (Store.affiliates store) |}.
Proof.
  unfold resolvedSiteMetadata, AuthorInfoAndPictures; cbn.
  now rewrite SiteInfoAll_id, AuthorInfoAll_id, affiliatesSelection_map.
Qed.

Lemma AuthorInfoAndPictures_imageData store files f pipeline :
  file files "louvre.jpg" = Some f ->
  sharp f = Some pipeline ->
  resolvedImageData (AuthorInfoAndPictures store files) =
    Some (pipeline {| width := 300; quality := 60;
                      layout := CONSTRAINED; formats := [AUTO; AVIF] |}).
Proof.
  intros Hf Hs. unfold resolvedImageData, AuthorInfoAndPictures; cbn.
  rewrite Hf; cbn. rewrite Hs; reflexivity.
Qed.

Lemma nonEmpty_spec (s : string) : nonEmpty s = true <-> s <> "".
Proof.
  unfold nonEmpty. destruct (String.eqb_spec s ""); cbn; split; congruence.
Qed.

Section AccessorProperties.

Variable getSrc : JsValue -> option string.

Lemma allRequestedFieldsPresent_inv data :
  allRequestedFieldsPresent data = true ->
  exists m d a s l,
    resolvedSiteMetadata data = Some m /\ resolvedImageData data = Some d /\
    Query.authorInfo m = Some a /\ Query.siteInfo m = Some s /\
    Query.affiliates m = Some l /\ present d = true.
Proof.
  unfold allRequestedFieldsPresent.
  destruct (resolvedSiteMetadata data) as [m|]; [|discriminate].
  destruct (resolvedImageData data) as [d|]; [|discriminate].
  destruct (Query.authorInfo m) as [a|] eqn:Ea; [|discriminate].
  destruct (Query.siteInfo m) as [s|] eqn:Es; [|discriminate].
  destruct (Query.affiliates m) as [l|] eqn:El; [|discriminate].
  cbn. intros Hp. exists m, d, a, s, l. repeat split; assumption.
Qed.

Lemma hasSrc_inv (d : JsValue) :
  hasSrc getSrc d = true -> exists u, getSrc d = Some u /\ u <> "".
Proof.
  unfold hasSrc. destruct (getSrc d) as [u|]; [|discriminate].
  intros H. exists u. split; [reflexivity|now apply nonEmpty_spec].
Qed.

(** C1. For every Configuration Store the data layer resolves the query
    against (the picture asset being among the file nodes), the accessor
    returns a value whose [site], [author.info] and [affiliates] are equal,
    field for field and unchanged, to the store's [siteInfo], [authorInfo]
    and [affiliates]. *)
Theorem useAuthorAndSiteInfo_projects_store
    (cfg : Store.SiteMetadata) (files : list FileNode)
    (f : FileNode) (pipeline : GatsbyImageArgs -> JsValue) (n k : nat) :
  file files "louvre.jpg" = Some f ->
  sharp f = Some pipeline ->
  exists r,
    fst (useAuthorAndSiteInfo getSrc
           {| store := cfg;
              staticQueryResult := AuthorInfoAndPictures cfg files;
              reads := n; refs := k |}) = Returned r /\
    site r = Some (Store.siteInfo cfg) /\
    info (author r) = Some (Store.authorInfo cfg) /\
    affiliates r = Some (Store.affiliates cfg).
Proof.
  intros Hf Hs.
  set (w := {| store := cfg;
               staticQueryResult := AuthorInfoAndPictures cfg files;
               reads := n; refs := k |}).
  pose proof (AuthorInfoAndPictures_siteMetadata cfg files) as Hm.
  pose proof (AuthorInfoAndPictures_imageData cfg files f pipeline Hf Hs) as Hd.
  rewrite (useAuthorAndSiteInfo_returns getSrc w _ _ Hm Hd); cbn.
  eexists; repeat split.
Qed.

(** C2 (amended). For every invocation that returns,
    [author.profilePictureSrc] is exactly what [getSrc] extracts from
    [author.profilePicture]: a non-empty string exactly when [getSrc]
    finds a non-empty source in the descriptor, [undefined] when it finds
    none. The call leaves nothing behind but the read, and every
    invocation that returns the same descriptor returns the same value. *)
Theorem profilePictureSrc_is_getSrc_of_profilePicture
    (w w' : World) (r : ProjectedMetadata) :
  useAuthorAndSiteInfo getSrc w = (Returned r, w') ->
  profilePictureSrc (author r) = getSrc (profilePicture (author r)) /\
  w' = afterRead w /\
  ((exists s, profilePictureSrc (author r) = Some s /\ s <> "") <->
   hasSrc getSrc (profilePicture (author r)) = true) /\
  (profilePictureSrc (author r) = None <->
   getSrc (profilePicture (author r)) = None) /\
  forall w2 w2' r2,
    useAuthorAndSiteInfo getSrc w2 = (Returned r2, w2') ->
    profilePicture (author r2) = profilePicture (author r) ->
    profilePictureSrc (author r2) = profilePictureSrc (author r).
Proof.
  intros E.
  destruct (useAuthorAndSiteInfo_inv getSrc _ _ _ E) as (m & d & _ & _ & -> & ->).
  cbn [author profilePictureSrc profilePicture].
  split; [reflexivity|]. split; [reflexivity|]. split; [|split].
  - unfold hasSrc. split.
    + intros (u & -> & Hu). now apply nonEmpty_spec.
    + destruct (getSrc d) as [u|]; [|discriminate].
      intros Hu. exists u. split; [reflexivity|now apply nonEmpty_spec].
  - reflexivity.
  - intros w2 w2' r2 E2 Hp.
    destruct (useAuthorAndSiteInfo_inv getSrc _ _ _ E2) as (m2 & d2 & _ & _ & -> & _).
    cbn [author profilePictureSrc profilePicture] in *. now subst d2.
Qed.

(** C5. For every store the data layer resolves, the accessor returns
    the store's affiliates in their declared order, index by index; for
    the configuration of this repository the offer tagged [react] is at
    index 0 and the one tagged [javascript] at index 1. *)
Theorem affiliates_keep_declared_order
    (cfg : Store.SiteMetadata) (files : list FileNode)
    (f : FileNode) (pipeline : GatsbyImageArgs -> JsValue) (n k : nat) :
  file files "louvre.jpg" = Some f ->
  sharp f = Some pipeline ->
  exists r l,
    fst (useAuthorAndSiteInfo getSrc
           {| store := cfg;
              staticQueryResult := AuthorInfoAndPictures cfg files;
              reads := n; refs := k |}) = Returned r /\
    affiliates r = Some l /\
    l = Store.affiliates cfg /\
    (forall i, nth_error l i = nth_error (Store.affiliates cfg) i) /\
    (forall NODE_ENV,
       cfg = Store.siteMetadata NODE_ENV ->
       exists o0 o1,
         nth_error l 0 = Some o0 /\ Store.tag o0 = "react" /\
         nth_error l 1 = Some o1 /\ Store.tag o1 = "javascript").
Proof.
  intros Hf Hs.
  pose proof (AuthorInfoAndPictures_siteMetadata cfg files) as Hm.
  pose proof (AuthorInfoAndPictures_imageData cfg files f pipeline Hf Hs) as Hd.
  match goal with
  | |- context [useAuthorAndSiteInfo getSrc ?w] =>
      rewrite (useAuthorAndSiteInfo_returns getSrc w _ _ Hm Hd)
  end.
  cbn [fst affiliates Query.affiliates].
  eexists; exists (Store.affiliates cfg). repeat split.
  intros NODE_ENV ->. cbn. do 2 eexists. repeat split.
Qed.

(** The world after [n] calls: same store, same served result, same
    refs, [n] more reads. *)
Lemma invocations_world (n : nat) (w : World) :
  invocations getSrc n w =
    {| store := store w;
       staticQueryResult := staticQueryResult w;
       reads := n + reads w;
       refs := refs w |}.
Proof.
  revert w. induction n as [|n IH]; intros w; cbn [invocations].
  - destruct w; reflexivity.
  - rewrite IH, useAuthorAndSiteInfo_world. cbn.
    f_equal. lia.
Qed.

(** C6. Calling the accessor again and again is idempotent: after any
    number of earlier calls the next one yields the very outcome of the
    first, as does a call in any world serving the same resolved result;
    and all those calls leave in the world is the count of reads served
    by the data layer. *)
Theorem useAuthorAndSiteInfo_idempotent (n : nat) (w : World) :
  fst (useAuthorAndSiteInfo getSrc (invocations getSrc n w)) =
    fst (useAuthorAndSiteInfo getSrc w) /\
  invocations getSrc n w =
    {| store := store w;
       staticQueryResult := staticQueryResult w;
       reads := n + reads w;
       refs := refs w |} /\
  forall w2,
    staticQueryResult w2 = staticQueryResult w ->
    fst (useAuthorAndSiteInfo getSrc w2) = fst (useAuthorAndSiteInfo getSrc w).
Proof.
  split; [|split].
  - apply useAuthorAndSiteInfo_outcome.
    rewrite invocations_world. reflexivity.
  - apply invocations_world.
  - intros w2. apply useAuthorAndSiteInfo_outcome.
Qed.

(** C7 (amended). When the data layer resolved every requested field (a
    well-formed build) the accessor does not throw, and every field it
    copies from the query result ([author.info], [author.profilePicture],
    [site], [affiliates]) is present; [author.profilePictureSrc] is what
    [getSrc] finds in the descriptor, so the returned value is fully
    populated exactly when [getSrc] finds a source there. *)
Theorem useAuthorAndSiteInfo_populated_up_to_src (w : World) :
  allRequestedFieldsPresent (staticQueryResult w) = true ->
  exists r,
    useAuthorAndSiteInfo getSrc w = (Returned r, afterRead w) /\
    isSome (info (author r)) = true /\
    present (profilePicture (author r)) = true /\
    isSome (site r) = true /\
    isSome (affiliates r) = true /\
    profilePictureSrc (author r) = getSrc (profilePicture (author r)) /\
    (fullyPopulated r = true <->
     getSrc (profilePicture (author r)) <> None).
Proof.
  intros H.
  destruct (allRequestedFieldsPresent_inv _ H)
    as (m & d & a & s & l & Hm & Hd & Ha & Hs & Hl & Hp).
  rewrite (useAuthorAndSiteInfo_returns getSrc w _ _ Hm Hd).
  eexists; split; [reflexivity|].
  unfold fullyPopulated; cbn [author info profilePicture profilePictureSrc site affiliates].
  rewrite Ha, Hs, Hl, Hp. repeat split; try discriminate.
  - intros Hf E. rewrite E in Hf. discriminate.
  - intros Hf. destruct (getSrc d); [reflexivity|contradiction].
Qed.

End AccessorProperties.

(** ** The Configuration Store *)

Lemma strictEq_true (a : option string) (lit : string) :
  strictEq a lit = true <-> a = Some lit.
Proof.
  destruct a as [s|]; cbn.
  - rewrite String.eqb_eq. split; congruence.
  - split; discriminate.
Qed.

(** C3. [carbonAdsService.isProductionMode] is [true] exactly when
    [NODE_ENV] is the string [production] or the string [prod]; for every
    other value, and when the variable is unset, it is [false]. *)
Theorem isProductionMode_exactly_production_or_prod (NODE_ENV : option string) :
  let flag :=
    Store.isProductionMode (Store.carbonAdsService (Store.siteMetadata NODE_ENV)) in
  (flag = true <-> NODE_ENV = Some "production" \/ NODE_ENV = Some "prod") /\
  (flag = false <-> NODE_ENV <> Some "production" /\ NODE_ENV <> Some "prod") /\
  Store.isProductionMode (Store.carbonAdsService (Store.siteMetadata None)) = false.
Proof.
  cbn -[strictEq].
  assert (T : strictEq NODE_ENV "production" || strictEq NODE_ENV "prod" = true
              <-> NODE_ENV = Some "production" \/ NODE_ENV = Some "prod").
  { rewrite orb_true_iff, !strictEq_true. reflexivity. }
  split; [exact T|]. split; [|reflexivity].
  destruct (strictEq NODE_ENV "production" || strictEq NODE_ENV "prod").
  - split; [discriminate|]. intros [N1 N2].
    destruct (proj1 T eq_refl); contradiction.
  - split; [|reflexivity]. intros _.
    split; intros E; [assert (false = true) by (apply T; now left)
                     |assert (false = true) by (apply T; now right)];
      discriminate.
Qed.

(** C10. Two evaluations of the Configuration Store under different
    environments agree on every exported field except
    [carbonAdsService.isProductionMode], and that flag does vary. *)
Theorem only_isProductionMode_follows_environment (e1 e2 : option string) :
  let m1 := Store.siteMetadata e1 in
  let m2 := Store.siteMetadata e2 in
  m2 = withProductionMode
         (Store.isProductionMode (Store.carbonAdsService m2)) m1 /\
  Store.siteUrl m1 = Store.siteUrl m2 /\
  Store.siteInfo m1 = Store.siteInfo m2 /\
  Store.authorInfo m1 = Store.authorInfo m2 /\
  Store.emailSubscriptionService m1 = Store.emailSubscriptionService m2 /\
  Store.scriptSrc (Store.carbonAdsService m1) =
    Store.scriptSrc (Store.carbonAdsService m2) /\
  Store.isEnabled (Store.carbonAdsService m1) =
    Store.isEnabled (Store.carbonAdsService m2) /\
  Store.featured m1 = Store.featured m2 /\
  Store.affiliates m1 = Store.affiliates m2 /\
  Store.siteMetadata (Some "production") <> Store.siteMetadata None.
Proof.
  cbn zeta. repeat split. intros E.
  apply (f_equal (fun m => Store.isProductionMode (Store.carbonAdsService m))) in E.
  discriminate E.
Qed.

Lemma siteMetadata_siteInfoPopulated (NODE_ENV : option string) :
  siteInfoPopulated (Store.siteInfo (Store.siteMetadata NODE_ENV)) = true.
Proof. reflexivity. Qed.

(** ** The components *)

Section ComponentProperties.

Variable getSrc : JsValue -> option string.
Variable ToString : JsValue -> string.
Variable affiliatesStyles : list (string * JsValue).
Variable carbonAdStyles : list (string * JsValue).

(** [info] is bound neither in the function scope nor in the module scope. *)
Lemma info_unbound (r : ProjectedMetadata) :
  lookup "info" (Affiliates_scope affiliatesStyles r) = None.
Proof. reflexivity. Qed.

(** Once the accessor has returned, evaluating the JSX stops at the first
    read of [info]. *)
Lemma Affiliates_after_accessor (w w' : World) (r : ProjectedMetadata) :
  useAuthorAndSiteInfo getSrc w = (Returned r, w') ->
  Affiliates getSrc ToString affiliatesStyles w = (Thrown (ReferenceError "info"), w').
Proof.
  intros E. unfold Affiliates. unfold bind at 1. rewrite E.
  reflexivity.
Qed.

(** A failure of the accessor is the failure of the render. *)
Lemma Affiliates_accessor_throws (w w' : World) (e : JsError) :
  useAuthorAndSiteInfo getSrc w = (Thrown e, w') ->
  Affiliates getSrc ToString affiliatesStyles w = (Thrown e, w').
Proof.
  intros E. unfold Affiliates. unfold bind at 1. rewrite E.
  reflexivity.
Qed.

Lemma Affiliates_world (w : World) : snd (Affiliates getSrc ToString affiliatesStyles w) = afterRead w.
Proof.
  rewrite <- (useAuthorAndSiteInfo_world getSrc w).
  destruct (useAuthorAndSiteInfo getSrc w) as [[r|e] w'] eqn:E.
  - now rewrite (Affiliates_after_accessor w _ _ E).
  - now rewrite (Affiliates_accessor_throws w _ _ E).
Qed.

(** The accessor raises type errors only. *)
Lemma useAuthorAndSiteInfo_throws_TypeError (w : World) (e : JsError) :
  fst (useAuthorAndSiteInfo getSrc w) = Thrown e ->
  exists p, e = TypeError p.
Proof.
  unfold useAuthorAndSiteInfo, useStaticQuery, siteMetadata_of, bind, nonNull.
  destruct w as [st [s p] rd rf]; cbn.
  destruct p as [[[[d]|]]|]; cbn;
    try (intros H; inversion H; eexists; reflexivity).
  destruct s as [[[m|]]|]; cbn; intros H; inversion H; eexists; reflexivity.
Qed.

(** C4 (amended). No render of [Affiliates] produces output: each one
    throws. [info] is bound in neither the function scope (only
    [affiliates] is destructured) nor the module scope, so the render
    fails with the reference error for [info] exactly when the accessor
    call of line 5 returns; when the accessor itself throws on a [null]
    node of the query result, that type error is the failure of the
    render. *)
Theorem Affiliates_render_fails (w : World) :
  (exists e, fst (Affiliates getSrc ToString affiliatesStyles w) = Thrown e) /\
  (forall r, lookup "info" (Affiliates_scope affiliatesStyles r) = None) /\
  (fst (Affiliates getSrc ToString affiliatesStyles w) = Thrown (ReferenceError "info")
   <-> exists r, fst (useAuthorAndSiteInfo getSrc w) = Returned r) /\
  (forall e,
     fst (useAuthorAndSiteInfo getSrc w) = Thrown e ->
     fst (Affiliates getSrc ToString affiliatesStyles w) = Thrown e) /\
  snd (Affiliates getSrc ToString affiliatesStyles w) = afterRead w.
Proof.
  split; [|split; [exact info_unbound|split; [|split; [|apply Affiliates_world]]]].
  - destruct (useAuthorAndSiteInfo getSrc w) as [[r|e] w'] eqn:E.
    + exists (ReferenceError "info"). now rewrite (Affiliates_after_accessor w _ _ E).
    + exists e. now rewrite (Affiliates_accessor_throws w _ _ E).
  - pose proof (useAuthorAndSiteInfo_throws_TypeError w) as T.
    destruct (useAuthorAndSiteInfo getSrc w) as [[r|e] w'] eqn:E; cbn [fst] in *.
    + rewrite (Affiliates_after_accessor w _ _ E). cbn [fst].
      split; [intros _; now exists r|reflexivity].
    + rewrite (Affiliates_accessor_throws w _ _ E). cbn [fst].
      split.
      * intros H. destruct (T e eq_refl) as [p ->]. discriminate.
      * intros [r H]. discriminate.
  - intros e H.
    destruct (useAuthorAndSiteInfo getSrc w) as [[r|e'] w'] eqn:E; cbn [fst] in H.
    + discriminate.
    + inversion H; subst e'. now rewrite (Affiliates_accessor_throws w _ _ E).
Qed.

Lemma CarbonAd_world (props : CarbonAdProps) (w : World) :
  store (snd (CarbonAd carbonAdStyles props w)) = store w.
Proof.
  unfold CarbonAd, bind, useRef; cbn.
  destruct (Store.isEnabled (carbonAdsService props)); reflexivity.
Qed.

(** C8. For every [carbonAdsService]: a disabled service renders nothing
    ([null]); an enabled one renders the container followed by the live
    banner with the configured [scriptSrc] when [isProductionMode] is
    [true] and by the demo banner when it is [false]. For the service of
    the Configuration Store that is the live banner exactly under
    [production] or [prod]. *)
Theorem CarbonAd_renders_by_flags (svc : Store.CarbonAdsService) (w : World) :
  let container :=
    Host "div" (Some (refs w))
      [("className",
        match lookup "carbonAd" carbonAdStyles with
        | Some c => c
        | None => JsUndefined
        end)] [] in
  fst (CarbonAd carbonAdStyles {| carbonAdsService := svc |} w) =
    Returned
      (match Store.isEnabled svc, Store.isProductionMode svc with
       | false, _ => None
       | true, true =>
           Some (Fragment [container; CarbonBannerLive (refs w) (Store.scriptSrc svc)])
       | true, false =>
           Some (Fragment [container; CarbonBannerDemo (refs w)])
       end) /\
  forall NODE_ENV,
    fst (CarbonAd carbonAdStyles {| carbonAdsService :=
                        Store.carbonAdsService (Store.siteMetadata NODE_ENV) |} w) =
      Returned (Some (Fragment
        [ container;
          if strictEq NODE_ENV "production" || strictEq NODE_ENV "prod"
          then CarbonBannerLive (refs w)
                 "//cdn.carbonads.com/carbon.js?serve=CE7DT2QI&placement=dmitripavlutincom"
          else CarbonBannerDemo (refs w) ])).
Proof.
  cbn zeta. split.
  - unfold CarbonAd, bind, useRef; cbn.
    destruct (Store.isEnabled svc), (Store.isProductionMode svc); reflexivity.
  - intros NODE_ENV. reflexivity.
Qed.

(** Each invocation leaves the Configuration Store as it found it. *)
Lemma step_store (w : World) (i : Invocation) :
  store (step getSrc ToString affiliatesStyles carbonAdStyles w i) = store w.
Proof.
  destruct i as [| |props]; cbn [step].
  - now rewrite useAuthorAndSiteInfo_world.
  - now rewrite Affiliates_world.
  - apply CarbonAd_world.
Qed.

Lemma steps_store (trace : list Invocation) (w : World) :
  store (steps getSrc ToString affiliatesStyles carbonAdStyles w trace) = store w.
Proof.
  revert w. induction trace as [|i trace IH]; intros w; cbn; [reflexivity|].
  unfold steps in IH. now rewrite IH, step_store.
Qed.

(** C9. Every field of [siteInfo] is a non-empty string in the
    Configuration Store, whatever the environment, and stays so: no
    sequence of accessor calls and component renders changes the store. *)
Theorem siteInfo_populated_at_all_times
    (NODE_ENV : option string) (files : list FileNode) (trace : list Invocation) :
  let w := steps getSrc ToString affiliatesStyles carbonAdStyles
             (build NODE_ENV files) trace in
  store w = Store.siteMetadata NODE_ENV /\
  siteInfoPopulated (Store.siteInfo (store w)) = true /\
  Store.title (Store.siteInfo (store w)) <> "" /\
  Store.description (Store.siteInfo (store w)) <> "" /\
  Store.metaTitle (Store.siteInfo (store w)) <> "" /\
  Store.metaDescription (Store.siteInfo (store w)) <> "" /\
  Store.url (Store.siteInfo (store w)) <> "" /\
  Store.repositoryUrl (Store.siteInfo (store w)) <> "" /\
  Store.githubCommentsRepository (Store.siteInfo (store w)) <> "" /\
  Store.googleCustomSearchId (Store.siteInfo (store w)) <> "".
Proof.
  cbn zeta. rewrite steps_store. cbn [build store].
  split; [reflexivity|]. split; [reflexivity|].
  repeat split; discriminate.
Qed.

End ComponentProperties.

(* ===================================================================== *)
(** * The theorems at the fixtures                                        *)
(* ===================================================================== *)

Example example_world_run :
  useAuthorAndSiteInfo getSrc_fallback example_world =
    (Returned example_projection, afterRead example_world).
Proof. reflexivity. Qed.

(** With the example configuration, [site.title] and
    [author.info.profiles.github] read as configured. *)
Example example_title_and_github :
  option_map Store.title (site example_projection) = Some "Dmitri Pavlutin" /\
  option_map (fun a => Store.github (Store.profiles a))
    (info (author example_projection)) = Some "https://github.com/panzerdp".
Proof. split; reflexivity. Qed.

(** When the picture asset is missing the accessor dereferences [null],
    and so does a render of [Affiliates], before [info] is ever read. *)
Example pictureless_world_run :
  useAuthorAndSiteInfo getSrc_fallback pictureless_world =
    (Thrown (TypeError "childImageSharp"), afterRead pictureless_world) /\
  Affiliates getSrc_fallback ToString_example [] pictureless_world =
    (Thrown (TypeError "childImageSharp"), afterRead pictureless_world).
Proof. split; reflexivity. Qed.

Lemma useAuthorAndSiteInfo_projects_store_witness :
  file example_files "louvre.jpg" = Some louvre_node /\
  sharp louvre_node = Some louvre_pipeline /\
  exists r,
    fst (useAuthorAndSiteInfo getSrc_fallback
           {| store := Store.siteMetadata None;
              staticQueryResult :=
                AuthorInfoAndPictures (Store.siteMetadata None) example_files;
              reads := 0; refs := 0 |}) = Returned r /\
    site r = Some (Store.siteInfo (Store.siteMetadata None)) /\
    info (author r) = Some (Store.authorInfo (Store.siteMetadata None)) /\
    affiliates r = Some (Store.affiliates (Store.siteMetadata None)).
Proof.
  split; [reflexivity|]. split; [reflexivity|].
  apply (useAuthorAndSiteInfo_projects_store getSrc_fallback
           (Store.siteMetadata None) example_files louvre_node louvre_pipeline 0 0);
    reflexivity.
Defined.

Lemma profilePictureSrc_is_getSrc_of_profilePicture_witness :
  useAuthorAndSiteInfo getSrc_fallback example_world =
    (Returned example_projection, afterRead example_world) /\
  profilePictureSrc (author example_projection) =
    getSrc_fallback (profilePicture (author example_projection)) /\
  afterRead example_world = afterRead example_world /\
  ((exists s, profilePictureSrc (author example_projection) = Some s /\ s <> "") <->
   hasSrc getSrc_fallback (profilePicture (author example_projection)) = true) /\
  (profilePictureSrc (author example_projection) = None <->
   getSrc_fallback (profilePicture (author example_projection)) = None) /\
  forall w2 w2' r2,
    useAuthorAndSiteInfo getSrc_fallback w2 = (Returned r2, w2') ->
    profilePicture (author r2) = profilePicture (author example_projection) ->
    profilePictureSrc (author r2) = profilePictureSrc (author example_projection).
Proof.
  split; [reflexivity|].
  apply (profilePictureSrc_is_getSrc_of_profilePicture getSrc_fallback
           example_world (afterRead example_world) example_projection).
  reflexivity.
Defined.

(** With a [null] descriptor the accessor returns, and the URL it
    returns is [undefined], not a non-empty string. *)
Lemma profilePictureSrc_undefined_for_null_descriptor :
  exists r,
    useAuthorAndSiteInfo getSrc_fallback null_descriptor_world =
      (Returned r, afterRead null_descriptor_world) /\
    profilePicture (author r) = JsNull /\
    profilePictureSrc (author r) = None /\
    ~ (exists s, profilePictureSrc (author r) = Some s /\ s <> "").
Proof.
  eexists. split; [reflexivity|]. cbn [author profilePicture profilePictureSrc].
  split; [reflexivity|]. split; [reflexivity|].
  intros (s & H & _). discriminate H.
Qed.

Lemma affiliates_keep_declared_order_witness :
  file example_files "louvre.jpg" = Some louvre_node /\
  sharp louvre_node = Some louvre_pipeline /\
  exists r l,
    fst (useAuthorAndSiteInfo getSrc_fallback
           {| store := Store.siteMetadata (Some "prod");
              staticQueryResult :=
                AuthorInfoAndPictures (Store.siteMetadata (Some "prod")) example_files;
              reads := 0; refs := 0 |}) = Returned r /\
    affiliates r = Some l /\
    l = Store.affiliates (Store.siteMetadata (Some "prod")) /\
    (forall i, nth_error l i
               = nth_error (Store.affiliates (Store.siteMetadata (Some "prod"))) i) /\
    (forall NODE_ENV,
       Store.siteMetadata (Some "prod") = Store.siteMetadata NODE_ENV ->
       exists o0 o1,
         nth_error l 0 = Some o0 /\ Store.tag o0 = "react" /\
         nth_error l 1 = Some o1 /\ Store.tag o1 = "javascript").
Proof.
  split; [reflexivity|]. split; [reflexivity|].
  apply (affiliates_keep_declared_order getSrc_fallback
           (Store.siteMetadata (Some "prod")) example_files
           louvre_node louvre_pipeline 0 0);
    reflexivity.
Defined.

Lemma useAuthorAndSiteInfo_populated_up_to_src_witness :
  allRequestedFieldsPresent (staticQueryResult example_world) = true /\
  exists r,
    useAuthorAndSiteInfo getSrc_fallback example_world =
      (Returned r, afterRead example_world) /\
    isSome (info (author r)) = true /\
    present (profilePicture (author r)) = true /\
    isSome (site r) = true /\
    isSome (affiliates r) = true /\
    profilePictureSrc (author r) = getSrc_fallback (profilePicture (author r)) /\
    (fullyPopulated r = true <->
     getSrc_fallback (profilePicture (author r)) <> None).
Proof.
  split; [reflexivity|].
  apply (useAuthorAndSiteInfo_populated_up_to_src getSrc_fallback example_world);
    reflexivity.
Defined.

(** Every requested field is resolved, the descriptor is present but has
    no fallback source: the accessor returns, and the value it returns is
    not fully populated. *)
Lemma sourceless_descriptor_not_fully_populated :
  allRequestedFieldsPresent (staticQueryResult sourceless_world) = true /\
  exists r,
    useAuthorAndSiteInfo getSrc_fallback sourceless_world =
      (Returned r, afterRead sourceless_world) /\
    profilePictureSrc (author r) = None /\
    fullyPopulated r = false.
Proof.
  split; [reflexivity|].
  eexists. split; [reflexivity|]. split; reflexivity.
Qed.

(** With the picture asset missing, the render of [Affiliates] fails with
    the accessor's type error, not with a reference error. *)
Lemma Affiliates_pictureless_TypeError :
  fst (Affiliates getSrc_fallback ToString_example [] pictureless_world) =
    Thrown (TypeError "childImageSharp") /\
  fst (Affiliates getSrc_fallback ToString_example [] pictureless_world) <>
    Thrown (ReferenceError "info").
Proof.
  split; [reflexivity|]. cbn. discriminate.
Qed.

(* ===================================================================== *)
(** * Further properties: strings and ListItem                            *)
(* ===================================================================== *)

Lemma substring_none (n : nat) (s : string) : substring n 0 s = "".
Proof.
  revert n. induction s as [|c s IH]; intros [|n]; cbn; auto.
Qed.

(** Two adjacent pieces make the longer piece. *)
Lemma substring_adjacent (s : string) (a m1 m2 : nat) :
  substring a m1 s ++ substring (a + m1) m2 s = substring a (m1 + m2) s.
Proof.
  revert a m1. induction s as [|c s IH]; intros a m1.
  - destruct a, m1, m2; reflexivity.
  - destruct a as [|a].
    + destruct m1 as [|m1]; cbn [Nat.add].
      * reflexivity.
      * cbn. f_equal. apply (IH 0 m1).
    + cbn. apply IH.
Qed.

Lemma substring_whole (s : string) (m : nat) :
  String.length s <= m -> substring 0 m s = s.
Proof.
  revert m. induction s as [|c s IH]; intros [|m] H; cbn in *; try reflexivity.
  - lia.
  - f_equal. apply IH. lia.
Qed.

Lemma length_substring (s : string) (n m : nat) :
  String.length (substring n m s) = Nat.min m (String.length s - n).
Proof.
  revert n m. induction s as [|c s IH]; intros [|n] [|m]; cbn;
    try rewrite IH; try rewrite Nat.sub_0_r; auto.
Qed.

(** [slice] in terms of [substring], whatever the bounds. *)
Lemma slice_substring (s : string) (start : Z) (end_ : option Z) :
  let len := Z.of_nat (String.length s) in
  let from := clampIndex len start in
  let to := match end_ with Some e => clampIndex len e | None => len end in
  slice s start end_ = substring (Z.to_nat from) (Z.to_nat (to - from)) s.
Proof.
  cbn zeta. unfold slice.
  set (len := Z.of_nat (String.length s)).
  set (from := clampIndex len start).
  set (to := match end_ with Some e => clampIndex len e | None => len end).
  destruct (Z.leb_spec to from) as [H|H]; [|reflexivity].
  replace (Z.to_nat (to - from)) with 0 by lia. now rewrite substring_none.
Qed.

Lemma clampIndex_nonneg (len i : Z) :
  (0 <= i)%Z -> clampIndex len i = Z.min i len.
Proof.
  intros H. unfold clampIndex. destruct (Z.ltb_spec i 0); [lia|reflexivity].
Qed.

Lemma substring_three_parts (s : string) (A B : nat) :
  A <= B -> B <= String.length s ->
  substring 0 A s ++ substring A (B - A) s
    ++ substring B (String.length s - B) s = s.
Proof.
  intros HA HB.
  pose proof (substring_adjacent s A (B - A) (String.length s - B)) as E.
  replace (A + (B - A)) with B in E by lia. rewrite E.
  pose proof (substring_adjacent s 0 A (B - A + (String.length s - B))) as E2.
  cbn [Nat.add] in E2. rewrite E2.
  apply substring_whole. lia.
Qed.

(** Cutting at two non-negative, ordered indices loses nothing. *)
Lemma slice_three_parts (s : string) (a b : Z) :
  (0 <= a <= b)%Z ->
  slice s 0 (Some a) ++ slice s a (Some b) ++ slice s b None = s.
Proof.
  intros [Ha Hb].
  rewrite !slice_substring; cbn zeta.
  rewrite !clampIndex_nonneg by lia.
  set (L := Z.of_nat (String.length s)).
  set (A := Nat.min (Z.to_nat a) (String.length s)).
  set (B := Nat.min (Z.to_nat b) (String.length s)).
  replace (Z.to_nat (Z.min 0 L)) with 0 by lia.
  replace (Z.to_nat (Z.min a L - Z.min 0 L)) with A by lia.
  replace (Z.to_nat (Z.min b L - Z.min a L)) with (B - A) by lia.
  replace (Z.to_nat (L - Z.min b L)) with (String.length s - B) by lia.
  replace (Z.to_nat (Z.min a L)) with A by lia.
  replace (Z.to_nat (Z.min b L)) with B by lia.
  apply substring_three_parts; lia.
Qed.

Lemma indexOf_range (s search : string) : (-1 <= indexOf s search)%Z.
Proof.
  unfold indexOf. destruct (index 0 search s); lia.
Qed.

Lemma indexOf_found (s search : string) (k : nat) :
  index 0 search s = Some k -> indexOf s search = Z.of_nat k.
Proof. unfold indexOf. now intros ->. Qed.

Lemma indexOf_missing (s search : string) :
  indexOf s search = (-1)%Z <-> index 0 search s = None.
Proof.
  unfold indexOf. destruct (index 0 search s); split; try discriminate; try lia.
  reflexivity.
Qed.

(** An occurrence lies inside the string. *)
Lemma occurrence_fits (s search : string) (k : nat) :
  substring k (String.length search) s = search ->
  search <> "" ->
  k + String.length search <= String.length s.
Proof.
  intros H Hne.
  apply (f_equal String.length) in H. rewrite length_substring in H.
  destruct search as [|c search]; [congruence|].
  cbn [String.length] in *. lia.
Qed.

Lemma append_empty_r (s : string) : s ++ "" = s.
Proof. induction s as [|c s IH]; cbn; [reflexivity|now rewrite IH]. Qed.

Lemma index_empty (s : string) : index 0 "" s = Some 0.
Proof. destruct s; reflexivity. Qed.

(** With the cut points inside the string, the three slices of
    [ListItem] are plain substrings. *)
Lemma slices_inside (s : string) (k l : nat) :
  k + l <= String.length s ->
  slice s 0 (Some (Z.of_nat k)) = substring 0 k s /\
  slice s (Z.of_nat k) (Some (Z.of_nat k + Z.of_nat l)%Z) = substring k l s /\
  slice s (Z.of_nat k + Z.of_nat l)%Z None
    = substring (k + l) (String.length s - (k + l)) s.
Proof.
  intros H.
  rewrite !slice_substring; cbn zeta.
  rewrite !clampIndex_nonneg by lia.
  repeat split; f_equal; lia.
Qed.

Lemma toLowerCase_ascii_length (s : string) :
  String.length (toLowerCase_ascii s) = String.length s.
Proof. induction s as [|c s IH]; cbn; [reflexivity|now rewrite IH]. Qed.

Lemma toLowerCase_ascii_substring (s : string) (n m : nat) :
  toLowerCase_ascii (substring n m s) = substring n m (toLowerCase_ascii s).
Proof.
  revert n m. induction s as [|c s IH]; intros [|n] [|m]; cbn;
    try rewrite IH; reflexivity.
Qed.

Section ListItemProperties.

Variable toLowerCase : string -> string.

(** The branch [ListItem] takes, read off its result. *)
Lemma ListItem_plain_index (name highlight : string) :
  ListItem toLowerCase name highlight = Host "div" None [] [Text name] <->
  index 0 (toLowerCase highlight) (toLowerCase name) = None.
Proof.
  unfold ListItem. rewrite <- indexOf_missing.
  destruct (Z.eqb_spec (indexOf (toLowerCase name) (toLowerCase highlight)) (-1)).
  - split; auto.
  - split; [discriminate|contradiction].
Qed.

Lemma textContent_ListItem (name highlight : string) :
  textContent (ListItem toLowerCase name highlight) = name.
Proof.
  unfold ListItem.
  pose proof (indexOf_range (toLowerCase name) (toLowerCase highlight)) as R.
  destruct (Z.eqb_spec (indexOf (toLowerCase name) (toLowerCase highlight)) (-1)) as [E|E].
  - cbn. apply append_empty_r.
  - cbn. rewrite !append_empty_r.
    apply slice_three_parts. lia.
Qed.

(** X1. Whatever the name and the highlight, and however the engine
    lower-cases, the text [ListItem] shows is the name itself: the three
    slices lose, add and reorder nothing, and keep the name's own case. *)
Theorem ListItem_keeps_text (name highlight : string) :
  textContent (ListItem toLowerCase name highlight) = name.
Proof. apply textContent_ListItem. Qed.

(** X2. [ListItem] renders the bare name, without a highlight span,
    exactly when the lower-cased highlight occurs nowhere in the
    lower-cased name. *)
Theorem ListItem_plain_iff_no_occurrence (name highlight : string) :
  ListItem toLowerCase name highlight = Host "div" None [] [Text name] <->
  forall m,
    substring m (String.length (toLowerCase highlight)) (toLowerCase name)
      <> toLowerCase highlight.
Proof.
  rewrite ListItem_plain_index. split.
  - intros H m. apply (index_correct3 0 m _ _ H); [|lia].
    intros E. rewrite E, index_empty in H. discriminate.
  - intros H.
    destruct (index 0 (toLowerCase highlight) (toLowerCase name)) as [k|] eqn:E;
      [|reflexivity].
    exfalso. exact (H k (index_correct1 _ _ _ _ E)).
Qed.

(** X3. For an ASCII name and highlight, on which lower-casing keeps the
    length and lower-cases the name position by position: when the
    highlight occurs in the name ignoring case, [ListItem] wraps in the
    span the leftmost such occurrence, a piece of the name as long as the
    highlight, equal to it up to case, with no occurrence starting before
    it, preceded and followed by the rest of the name. *)
Theorem ListItem_highlights_leftmost_occurrence (name highlight : string) (m : nat) :
  asciiOnly name = true ->
  asciiOnly highlight = true ->
  String.length (toLowerCase name) = String.length name ->
  String.length (toLowerCase highlight) = String.length highlight ->
  (forall n l, toLowerCase (substring n l name) = substring n l (toLowerCase name)) ->
  substring m (String.length (toLowerCase highlight)) (toLowerCase name)
    = toLowerCase highlight ->
  exists k,
    k <= m /\
    k + String.length highlight <= String.length name /\
    ListItem toLowerCase name highlight =
      Host "div" None []
        [ Text (substring 0 k name);
          Host "span" None [("className", JsStr "highlight")]
            [Text (substring k (String.length highlight) name)];
          Text (substring (k + String.length highlight)
                  (String.length name - (k + String.length highlight)) name) ] /\
    toLowerCase (substring k (String.length highlight) name)
      = toLowerCase highlight /\
    forall p, p < k ->
      substring p (String.length highlight) (toLowerCase name)
        <> toLowerCase highlight.
Proof.
  intros _ _ Hname Hhigh Hsub Hocc.
  destruct (index 0 (toLowerCase highlight) (toLowerCase name)) as [k|] eqn:E.
  2:{ exfalso. revert Hocc. apply (index_correct3 0 m _ _ E); [|lia].
      intros E0. rewrite E0, index_empty in E. discriminate. }
  pose proof (index_correct1 _ _ _ _ E) as Hk.
  pose proof (index_correct2 _ _ _ _ E) as Hleft.
  rewrite Hhigh in Hk, Hocc, Hleft.
  assert (Hfit : k + String.length highlight <= String.length name).
  { destruct (string_dec (toLowerCase highlight) "") as [E0|Hne].
    - rewrite E0, index_empty in E. inversion E; subst k.
      rewrite <- Hhigh, E0. cbn. lia.
    - rewrite <- Hname, <- Hhigh.
      apply occurrence_fits; [|assumption]. now rewrite Hhigh. }
  exists k. split.
  { destruct (Nat.le_gt_cases k m) as [L|L]; [assumption|].
    exfalso. apply (Hleft m); [lia|assumption|assumption]. }
  split; [assumption|]. split.
  { unfold ListItem. rewrite (indexOf_found _ _ _ E).
    destruct (Z.eqb_spec (Z.of_nat k) (-1)) as [F|_]; [lia|].
    destruct (slices_inside name k (String.length highlight) Hfit) as (-> & -> & ->).
    reflexivity. }
  split; [now rewrite Hsub|].
  intros p Hp. apply Hleft; lia.
Qed.

(** X4. On its first render the state is the empty string, and the empty
    string occurs at index 0 of every name: [FilterList] takes the
    highlight branch for each item, with an empty span in front of the
    whole name. *)
Theorem FilterList_initial_render (names : list string) :
  toLowerCase "" = "" ->
  FilterList toLowerCase names "" =
    Host "div" None []
      (Host "input" None
         [ ("onChange", JsFun "changeHandler");
           ("value", JsStr "");
           ("type", JsStr "text") ] []
       :: map (fun name =>
                 Host "div" None []
                   [ Text "";
                     Host "span" None [("className", JsStr "highlight")] [Text ""];
                     Text name ]) names).
Proof.
  intros H0. unfold FilterList. do 2 f_equal.
  apply map_ext. intros name.
  unfold ListItem. rewrite H0.
  rewrite (indexOf_found _ _ _ (index_empty (toLowerCase name))).
  destruct (slices_inside name 0 0 (Nat.le_0_l _)) as (E1 & E2 & E3).
  change (Z.of_nat 0 + Z.of_nat 0)%Z with 0%Z in E2, E3.
  change (Z.of_nat 0) with 0%Z in E1, E2.
  change (Z.of_nat 0 =? -1)%Z with false.
  change (Z.of_nat 0 + Z.of_nat (String.length ""))%Z with 0%Z.
  change (Z.of_nat 0) with 0%Z.
  cbv iota zeta.
  rewrite E1, E3. cbn [Nat.add].
  rewrite substring_none, Nat.sub_0_r, substring_whole by lia. reflexivity.
Qed.

(** X5. [FilterList] never filters: whatever the query, it renders one
    item per name, in the order given, each showing its name in full. *)
Theorem FilterList_shows_every_name (names : list string) (query : string) :
  map textContent (renderedItems (FilterList toLowerCase names query)) = names.
Proof.
  unfold FilterList, renderedItems. rewrite map_map.
  induction names as [|name names IH]; cbn [map]; [reflexivity|].
  now rewrite textContent_ListItem, IH.
Qed.

End ListItemProperties.

(* ===================================================================== *)
(** * Further properties: the accessor and the components                 *)
(* ===================================================================== *)

(** The world after one more [useRef] call and nothing else. *)
Lemma CarbonAd_run (carbonAdStyles : list (string * JsValue))
    (props : CarbonAdProps) (w : World) :
  exists v,
    CarbonAd carbonAdStyles props w =
      (Returned v,
       {| store := store w;
          staticQueryResult := staticQueryResult w;
          reads := reads w;
          refs := S (refs w) |}).
Proof.
  unfold CarbonAd, bind, useRef; cbn.
  destruct (Store.isEnabled (carbonAdsService props)); cbn; eexists; reflexivity.
Qed.

Section AccessorOutcomes.

Variable getSrc : JsValue -> option string.

Ltac open_result w :=
  unfold useAuthorAndSiteInfo, useStaticQuery, siteMetadata_of, bind, nonNull;
  destruct w as [?st [?s ?p] ?rd ?rf]; cbn.

(** X6. The accessor returns exactly when the four objects it reads
    through are not [null]: the picture file, its [childImageSharp], the
    [site] and its [siteMetadata]. The three groups below them are not
    looked into. *)
Theorem useAuthorAndSiteInfo_returns_iff (w : World) :
  (exists r, fst (useAuthorAndSiteInfo getSrc w) = Returned r) <->
  resolvedSiteMetadata (staticQueryResult w) <> None /\
  resolvedImageData (staticQueryResult w) <> None.
Proof.
  split.
  - intros [r H].
    destruct (useAuthorAndSiteInfo getSrc w) as [o w'] eqn:E; cbn [fst] in H; subst o.
    destruct (useAuthorAndSiteInfo_inv getSrc _ _ _ E) as (m & d & Hm & Hd & _).
    rewrite Hm, Hd. split; discriminate.
  - intros [Hm Hd].
    destruct (resolvedSiteMetadata (staticQueryResult w)) as [m|] eqn:Em; [|contradiction].
    destruct (resolvedImageData (staticQueryResult w)) as [d|] eqn:Ed; [|contradiction].
    rewrite (useAuthorAndSiteInfo_returns getSrc w m d Em Ed). eexists; reflexivity.
Qed.

(** X7. Which error a failing call raises: the picture is read first, so
    a missing picture file is reported (reading [childImageSharp]) even
    when the site is missing too; then a file without image data (reading
    [gatsbyImageData]); only with the descriptor in hand a missing [site]
    (reading [siteMetadata]) or [siteMetadata] (reading [authorInfo]). *)
Theorem useAuthorAndSiteInfo_error_order (w : World) :
  let q := staticQueryResult w in
  (Query.authorProfilePicture q = None ->
   fst (useAuthorAndSiteInfo getSrc w) = Thrown (TypeError "childImageSharp")) /\
  (forall f, Query.authorProfilePicture q = Some f ->
             Query.childImageSharp f = None ->
   fst (useAuthorAndSiteInfo getSrc w) = Thrown (TypeError "gatsbyImageData")) /\
  (forall d, resolvedImageData q = Some d -> Query.site q = None ->
   fst (useAuthorAndSiteInfo getSrc w) = Thrown (TypeError "siteMetadata")) /\
  (forall d s, resolvedImageData q = Some d -> Query.site q = Some s ->
               Query.siteMetadata s = None ->
   fst (useAuthorAndSiteInfo getSrc w) = Thrown (TypeError "authorInfo")).
Proof.
  cbn zeta. unfold resolvedImageData. repeat split.
  - open_result w. now intros ->.
  - open_result w. intros f -> E. cbn. now rewrite E.
  - open_result w. intros d.
    destruct p as [[[[d']|]]|]; cbn; try discriminate. now intros _ ->.
  - open_result w. intros d s'.
    destruct p as [[[[d']|]]|]; cbn; try discriminate.
    intros _ -> E. cbn. now rewrite E.
Qed.

(** X8. The converse of full population: a value the accessor returns
    has no absent or [null] field only if the data layer had resolved
    every requested field and [getSrc] found a source in the descriptor. *)
Theorem fullyPopulated_iff (w w' : World) (r : ProjectedMetadata) :
  useAuthorAndSiteInfo getSrc w = (Returned r, w') ->
  (fullyPopulated r = true <->
   allRequestedFieldsPresent (staticQueryResult w) = true /\
   getSrc (profilePicture (author r)) <> None).
Proof.
  intros E.
  destruct (useAuthorAndSiteInfo_inv getSrc _ _ _ E) as (m & d & Hm & Hd & -> & _).
  unfold fullyPopulated, allRequestedFieldsPresent.
  rewrite Hm, Hd. cbn [author info profilePicture profilePictureSrc site affiliates].
  destruct (Query.authorInfo m), (Query.siteInfo m), (Query.affiliates m),
    (present d), (getSrc d); cbn; split;
    try discriminate; try (intros [? ?]; congruence);
    try (intros _; split; [reflexivity|discriminate]); auto.
Qed.

(** The outcome of the accessor does not depend on [getSrc] beyond the
    URL it puts in the returned value. *)
Lemma useAuthorAndSiteInfo_any_getSrc (g : JsValue -> option string) (w : World) :
  match useAuthorAndSiteInfo getSrc w, useAuthorAndSiteInfo g w with
  | (Returned _, w1), (Returned _, w2) => w1 = w2
  | (Thrown e1, w1), (Thrown e2, w2) => e1 = e2 /\ w1 = w2
  | _, _ => False
  end.
Proof.
  open_result w.
  destruct p as [[[[d]|]]|]; cbn; auto.
  destruct s as [[[m|]]|]; cbn; auto.
Qed.

(** X9. For a build, only the picture can make the accessor fail: no
    [louvre.jpg] among the file nodes raises the error on
    [childImageSharp], a [louvre.jpg] that is not an image the one on
    [gatsbyImageData]; otherwise the call returns the descriptor the
    pipeline produced for width 300, quality 60, constrained layout and
    the formats AUTO and AVIF, with the URL [getSrc] finds in it. *)
Theorem useAuthorAndSiteInfo_on_build
    (NODE_ENV : option string) (files : list FileNode) :
  let outcome := fst (useAuthorAndSiteInfo getSrc (build NODE_ENV files)) in
  match file files "louvre.jpg" with
  | None => outcome = Thrown (TypeError "childImageSharp")
  | Some f =>
      match sharp f with
      | None => outcome = Thrown (TypeError "gatsbyImageData")
      | Some pipeline =>
          let d := pipeline {| width := 300; quality := 60;
                               layout := CONSTRAINED;
                               formats := [AUTO; AVIF] |} in
          exists r,
            outcome = Returned r /\
            profilePicture (author r) = d /\
            profilePictureSrc (author r) = getSrc d
      end
  end.
Proof.
  cbn zeta.
  unfold build, useAuthorAndSiteInfo, useStaticQuery, siteMetadata_of, bind, nonNull.
  cbn [staticQueryResult store reads refs AuthorInfoAndPictures
       Query.authorProfilePicture Query.site Query.siteMetadata].
  destruct (file files "louvre.jpg") as [f|]; [|reflexivity].
  cbn [Query.childImageSharp].
  destruct (sharp f) as [pipeline|]; [|reflexivity].
  cbn. eexists. repeat split.
Qed.

End AccessorOutcomes.

Section ComponentOutcomes.

Variable getSrc : JsValue -> option string.
Variable ToString : JsValue -> string.
Variable affiliatesStyles : list (string * JsValue).
Variable carbonAdStyles : list (string * JsValue).

(** The render of [Affiliates] is decided by the outcome of the accessor. *)
Lemma Affiliates_by_accessor (w : World) :
  Affiliates getSrc ToString affiliatesStyles w =
    match useAuthorAndSiteInfo getSrc w with
    | (Returned _, w') => (Thrown (ReferenceError "info"), w')
    | (Thrown e, w') => (Thrown e, w')
    end.
Proof.
  destruct (useAuthorAndSiteInfo getSrc w) as [[r|e] w'] eqn:E.
  - exact (Affiliates_after_accessor getSrc ToString affiliatesStyles w w' r E).
  - exact (Affiliates_accessor_throws getSrc ToString affiliatesStyles w w' e E).
Qed.

(** X10. What the accessor returns, and how [Affiliates] fails, is the
    same in every environment: the query does not select the one field of
    the store that follows [NODE_ENV]. *)
Theorem projection_ignores_environment
    (e1 e2 : option string) (files : list FileNode) :
  fst (useAuthorAndSiteInfo getSrc (build e1 files)) =
    fst (useAuthorAndSiteInfo getSrc (build e2 files)) /\
  fst (Affiliates getSrc ToString affiliatesStyles (build e1 files)) =
    fst (Affiliates getSrc ToString affiliatesStyles (build e2 files)).
Proof.
  assert (H : fst (useAuthorAndSiteInfo getSrc (build e1 files)) =
              fst (useAuthorAndSiteInfo getSrc (build e2 files))).
  { apply useAuthorAndSiteInfo_outcome. reflexivity. }
  split; [exact H|].
  rewrite !Affiliates_by_accessor.
  destruct (useAuthorAndSiteInfo getSrc (build e1 files)) as [[r1|x1] w1],
           (useAuthorAndSiteInfo getSrc (build e2 files)) as [[r2|x2] w2];
    cbn [fst] in *; congruence.
Qed.

(** X11. No class name of the stylesheet, no string conversion and no
    [getSrc] makes [Affiliates] render: with any other three the render
    ends in the same exception and the same world. *)
Theorem Affiliates_fails_whatever_the_imports
    (getSrc' : JsValue -> option string) (ToString' : JsValue -> string)
    (styles' : list (string * JsValue)) (w : World) :
  Affiliates getSrc ToString affiliatesStyles w =
    Affiliates getSrc' ToString' styles' w.
Proof.
  rewrite (Affiliates_by_accessor w).
  pose proof (Affiliates_after_accessor getSrc' ToString' styles' w) as A.
  pose proof (Affiliates_accessor_throws getSrc' ToString' styles' w) as B.
  pose proof (useAuthorAndSiteInfo_any_getSrc getSrc getSrc' w) as H.
  destruct (useAuthorAndSiteInfo getSrc w) as [[r1|x1] w1],
           (useAuthorAndSiteInfo getSrc' w) as [[r2|x2] w2];
    try contradiction.
  - subst w2. symmetry. exact (A _ _ eq_refl).
  - destruct H as [-> ->]. symmetry. exact (B _ _ eq_refl).
Qed.

(** X12. [CarbonAd] never throws, and it calls [useRef] exactly once on
    every render, enabled or not, before it decides what to return; it
    makes no read against the data layer. *)
Theorem CarbonAd_calls_useRef_once (props : CarbonAdProps) (w : World) :
  exists v,
    CarbonAd carbonAdStyles props w =
      (Returned v,
       {| store := store w;
          staticQueryResult := staticQueryResult w;
          reads := reads w;
          refs := S (refs w) |}).
Proof. apply CarbonAd_run. Qed.

(** X13. The script URL reaches the output only through the live banner:
    for a disabled service, and for an enabled one outside production
    mode, the render is the same whatever [scriptSrc] is, while in
    production mode the output determines it. *)
Theorem CarbonAd_scriptSrc_only_in_production
    (s1 s2 : string) (w : World) :
  let run s en pm :=
    CarbonAd carbonAdStyles
      {| carbonAdsService :=
           {| Store.scriptSrc := s; Store.isEnabled := en;
              Store.isProductionMode := pm |} |} w in
  (forall pm, run s1 false pm = run s2 false pm) /\
  run s1 true false = run s2 true false /\
  (run s1 true true = run s2 true true -> s1 = s2).
Proof.
  cbn zeta. split; [|split].
  - intros pm. reflexivity.
  - reflexivity.
  - unfold CarbonAd, bind, useRef, member, ret; cbn.
    intros H. inversion H. reflexivity.
Qed.

(** One invocation, in terms of the two counters. *)
Lemma step_counts (w : World) (i : Invocation) :
  step getSrc ToString affiliatesStyles carbonAdStyles w i =
    {| store := store w;
       staticQueryResult := staticQueryResult w;
       reads := reads w + readsOf [i];
       refs := refs w + refsOf [i] |}.
Proof.
  destruct i as [| |props]; cbn [step readsOf refsOf].
  - rewrite useAuthorAndSiteInfo_world. unfold afterRead.
    f_equal; lia.
  - rewrite Affiliates_world. unfold afterRead. f_equal; lia.
  - destruct (CarbonAd_run carbonAdStyles props w) as [v ->]. cbn [snd].
    f_equal; lia.
Qed.

(** X14. Over any sequence of accessor calls and renders, the query
    result the data layer serves is never changed, every accessor call
    and every render of [Affiliates] (failed or not) costs exactly one
    read, and every render of [CarbonAd] exactly one [useRef] call. *)
Theorem steps_accounting (w : World) (trace : list Invocation) :
  steps getSrc ToString affiliatesStyles carbonAdStyles w trace =
    {| store := store w;
       staticQueryResult := staticQueryResult w;
       reads := reads w + readsOf trace;
       refs := refs w + refsOf trace |}.
Proof.
  unfold steps. revert w.
  induction trace as [|i trace IH]; intros w; cbn [fold_left].
  - destruct w; cbn. f_equal; lia.
  - rewrite IH, step_counts. cbn [store staticQueryResult reads refs].
    destruct i; cbn [readsOf refsOf]; f_equal; lia.
Qed.

End ComponentOutcomes.

(* ===================================================================== *)
(** * The further properties at concrete inputs                           *)
(* ===================================================================== *)

Example ListItem_match :
  ListItem toLowerCase_ascii "John Smith" "SMI" =
    Host "div" None []
      [ Text "John ";
        Host "span" None [("className", JsStr "highlight")] [Text "Smi"];
        Text "th" ].
Proof. reflexivity. Qed.

Example ListItem_no_match :
  ListItem toLowerCase_ascii "John Smith" "smyth" =
    Host "div" None [] [Text "John Smith"].
Proof. reflexivity. Qed.

(** Only the leftmost occurrence is wrapped. *)
Example ListItem_first_of_two :
  ListItem toLowerCase_ascii "Anna" "A" =
    Host "div" None []
      [ Text "";
        Host "span" None [("className", JsStr "highlight")] [Text "A"];
        Text "nna" ].
Proof. reflexivity. Qed.

Lemma ListItem_highlights_leftmost_occurrence_witness :
  asciiOnly "John Smith" = true /\
  asciiOnly "SMI" = true /\
  String.length (toLowerCase_ascii "John Smith") = String.length "John Smith" /\
  String.length (toLowerCase_ascii "SMI") = String.length "SMI" /\
  (forall n l,
     toLowerCase_ascii (substring n l "John Smith")
       = substring n l (toLowerCase_ascii "John Smith")) /\
  substring 5 (String.length (toLowerCase_ascii "SMI")) (toLowerCase_ascii "John Smith")
    = toLowerCase_ascii "SMI" /\
  exists k,
    k <= 5 /\
    k + String.length "SMI" <= String.length "John Smith" /\
    ListItem toLowerCase_ascii "John Smith" "SMI" =
      Host "div" None []
        [ Text (substring 0 k "John Smith");
          Host "span" None [("className", JsStr "highlight")]
            [Text (substring k (String.length "SMI") "John Smith")];
          Text (substring (k + String.length "SMI")
                  (String.length "John Smith" - (k + String.length "SMI"))
                  "John Smith") ] /\
    toLowerCase_ascii (substring k (String.length "SMI") "John Smith")
      = toLowerCase_ascii "SMI" /\
    forall p, p < k ->
      substring p (String.length "SMI") (toLowerCase_ascii "John Smith")
        <> toLowerCase_ascii "SMI".
Proof.
  split; [reflexivity|]. split; [reflexivity|].
  split; [reflexivity|]. split; [reflexivity|].
  split; [exact (toLowerCase_ascii_substring "John Smith")|].
  split; [reflexivity|].
  apply (ListItem_highlights_leftmost_occurrence toLowerCase_ascii
           "John Smith" "SMI" 5).
  - reflexivity.
  - reflexivity.
  - reflexivity.
  - reflexivity.
  - exact (toLowerCase_ascii_substring "John Smith").
  - reflexivity.
Defined.

Lemma FilterList_initial_render_witness :
  toLowerCase_ascii "" = "" /\
  FilterList toLowerCase_ascii ["Ann"; "Bob"] "" =
    Host "div" None []
      (Host "input" None
         [ ("onChange", JsFun "changeHandler");
           ("value", JsStr "");
           ("type", JsStr "text") ] []
       :: map (fun name =>
                 Host "div" None []
                   [ Text "";
                     Host "span" None [("className", JsStr "highlight")] [Text ""];
                     Text name ]) ["Ann"; "Bob"]).
Proof.
  split; [reflexivity|].
  apply (FilterList_initial_render toLowerCase_ascii ["Ann"; "Bob"]).
  reflexivity.
Defined.

Lemma fullyPopulated_iff_witness :
  useAuthorAndSiteInfo getSrc_fallback example_world =
    (Returned example_projection, afterRead example_world) /\
  (fullyPopulated example_projection = true <->
   allRequestedFieldsPresent (staticQueryResult example_world) = true /\
   getSrc_fallback (profilePicture (author example_projection)) <> None).
Proof.
  split; [reflexivity|].
  apply (fullyPopulated_iff getSrc_fallback example_world
           (afterRead example_world) example_projection).
  reflexivity.
Defined.
